(** * createHandleOpsCalldata: the v0.6 user-operation hash and the handleOps payload

    A shallow embedding of [src/createHandleOpsCalldata.ts]: the packed
    user-operation tuple ([packUserOpV06]), the domain-separated signing digest
    ([getUserOperationHashV06]) and the [handleOps] call payload
    ([encodeFunctionData] over the constant [abi]).

    The script gets [keccak256], [encodeAbiParameters] and [encodeFunctionData]
    from the viem package.  The hash is a parameter of the development; the ABI
    encoder is written out after the description the specification gives of it
    (head/tail encoding of the Ethereum contract ABI). *)

From Stdlib Require Import String.
From Stdlib Require Import List NArith Arith Lia Bool.
From Stdlib Require Init.Byte Strings.Byte.
Import ListNotations.

Set Implicit Arguments.
Set Warnings "-register-all".

(** ** Byte strings *)

Definition byte : Type := Init.Byte.byte.

Definition x00 : byte := Init.Byte.x00.

(** viem's [Hex]: a 0x-prefixed string of hex digits, that is, a byte string. *)
Definition Hex : Type := list byte.

Definition size (h : Hex) : nat := length h.

Definition concat (parts : list Hex) : Hex := List.concat parts.

Definition byte_of_N (n : N) : byte :=
  match Byte.of_N (n mod 256) with
  | Some b => b
  | None => x00
  end.

(** [numberToHex value {size}]: the big-endian digits of [value] in base 256,
    on [size] bytes.  The callers below check the range before they call it. *)
Fixpoint numberToHex (sz : nat) (value : N) : Hex :=
  match sz with
  | O => []
  | S k => numberToHex k (value / 256) ++ [byte_of_N value]
  end.

(** Reading a byte string as a big-endian unsigned integer. *)
Definition hexToBigInt (h : Hex) : N :=
  fold_left (fun acc b => (acc * 256 + Byte.to_N b)%N) h 0%N.

Definition zeros (n : nat) : Hex := repeat x00 n.

Definition padLeft (sz : nat) (h : Hex) : Hex := zeros (sz - size h) ++ h.

Definition padRight (sz : nat) (h : Hex) : Hex := h ++ zeros (sz - size h).

(** The least multiple of 32 that is at least [n]. *)
Definition ceil32 (n : nat) : nat := (n + 31) / 32 * 32.

(** ** Errors *)

Inductive EncodingError : Type :=
| ValueOutOfRange
| LayoutMismatch.

Inductive result (A : Type) : Type :=
| Ok (a : A)
| Err (e : EncodingError).

Arguments Ok {A} a.
Arguments Err {A} e.

Definition bind {A B : Type} (r : result A) (k : A -> result B) : result B :=
  match r with
  | Ok a => k a
  | Err e => Err e
  end.

Notation "x <- e ;; k" := (bind e (fun x => k))
  (at level 61, e at next level, right associativity).

(** ** The ABI type vocabulary and the values it is applied to *)

Inductive AbiType : Type :=
| TAddress
| TUint256
| TBytes32
| TBytes
| TTuple (components : list AbiType)
| TTupleArray (components : list AbiType).

(** What the script hands to the encoder: hex strings, bigints (the operation's
    integers are unsigned), and arrays or objects of those.  An object is read
    in the order of the tuple's components. *)
Inductive AbiValue : Type :=
| VHex (h : Hex)
| VBigInt (n : N)
| VList (items : list AbiValue).

(** Induction on a type, with the property for the components of a tuple. *)
Section AbiTypeInduction.

Variable P : AbiType -> Prop.

Hypothesis P_address : P TAddress.
Hypothesis P_uint256 : P TUint256.
Hypothesis P_bytes32 : P TBytes32.
Hypothesis P_bytes : P TBytes.
Hypothesis P_tuple : forall components, Forall P components -> P (TTuple components).
Hypothesis P_array : forall components, Forall P components -> P (TTupleArray components).


End AbiTypeInduction.

Definition uint256_max : N := 2 ^ 256 - 1.

(** Modelled from the spec: [encode_static(value, type)] is viem's encoder for
    the scalar types, which is not among the sources.  An address is left-padded
    with zero bytes to 32 bytes, a uint256 is a 32-byte big-endian unsigned
    integer; a uint256 above 2^256-1 or an address wider than 20 bytes is
    [ValueOutOfRange].  A bytes32 is its 32 bytes; a value of another shape or
    length than the declared type is [LayoutMismatch]. *)
Definition encode_static (value : AbiValue) (type : AbiType) : result Hex :=
  match type, value with
  | TAddress, VHex a =>
      if size a <=? 20 then Ok (padLeft 32 a) else Err ValueOutOfRange
  | TUint256, VBigInt n =>
      if (n <=? uint256_max)%N then Ok (numberToHex 32 n) else Err ValueOutOfRange
  | TBytes32, VHex h =>
      if size h =? 32 then Ok h else Err LayoutMismatch
  | _, _ => Err LayoutMismatch
  end.

(** Modelled from the spec: [encode_dynamic_bytes(data)] is viem's encoder for
    [bytes], which is not among the sources: a 32-byte big-endian length word,
    then [data] right-padded with zero bytes to the next multiple of 32. *)
Definition encode_dynamic_bytes (data : Hex) : Hex :=
  numberToHex 32 (N.of_nat (size data)) ++ padRight (ceil32 (size data)) data.

(** An encoded field together with its kind: a dynamic field is referred to by
    an offset word in the head and stored in the tail. *)
Record PreparedParam : Type := mkPrepared {
  dynamic : bool;
  encoded : Hex
}.

(** Modelled from the spec: first pass of [encode_tuple] (viem's encoder is
    not among the sources): the size of the head region. *)
Definition staticSize (ps : list PreparedParam) : nat :=
  fold_left (fun acc p => if dynamic p then acc + 32 else acc + size (encoded p)) ps 0.

(** Modelled from the spec: second pass of [encode_tuple]: the head words (an
    offset for a dynamic field, the encoding itself for a static one) and the
    tails, in field order.  An offset counts bytes from the start of the
    enclosing encoding. *)
Fixpoint splitParams (headSize dynamicSize : nat) (ps : list PreparedParam)
  : list Hex * list Hex :=
  match ps with
  | [] => ([], [])
  | p :: rest =>
      if dynamic p then
        let (heads, tails) := splitParams headSize (dynamicSize + size (encoded p)) rest in
        (numberToHex 32 (N.of_nat (headSize + dynamicSize)) :: heads, encoded p :: tails)
      else
        let (heads, tails) := splitParams headSize dynamicSize rest in
        (encoded p :: heads, tails)
  end.

(** Modelled from the spec: the head region, then the tail region. *)
Definition encodeParams (ps : list PreparedParam) : Hex :=
  let (heads, tails) := splitParams (staticSize ps) 0 ps in
  concat (heads ++ tails).

(** Modelled from the spec: a tuple is dynamic as soon as one of its fields
    is; a tuple of static fields has no offsets and no tail. *)
Definition tupleParam (ps : list PreparedParam) : PreparedParam :=
  let dyn := existsb dynamic ps in
  mkPrepared dyn (if dyn then encodeParams ps else concat (map encoded ps)).

(** Modelled from the spec: [encode_array_of_tuples] on encoded elements: the
    element-count word, then the elements laid out as the fields of a tuple,
    so that offsets count from the end of the count word; an array of no
    element is the count word alone. *)
Definition arrayParam (ps : list PreparedParam) : PreparedParam :=
  let count := numberToHex 32 (N.of_nat (length ps)) in
  mkPrepared true (match ps with
                   | [] => count
                   | _ :: _ => count ++ encodeParams ps
                   end).

(** Modelled from the spec: the recursive head/tail encoder ([encode_tuple],
    [encode_array_of_tuples]) is viem's [encodeAbiParameters], which is not
    among the sources.  Fields are taken in declaration order; a supplied value
    list of another length than the declared layout is [LayoutMismatch]. *)
Fixpoint prepareParam (type : AbiType) (value : AbiValue) {struct value}
  : result PreparedParam :=
  match type with
  | TAddress | TUint256 | TBytes32 =>
      w <- encode_static value type ;;
      Ok (mkPrepared false w)
  | TBytes =>
      match value with
      | VHex data => Ok (mkPrepared true (encode_dynamic_bytes data))
      | _ => Err LayoutMismatch
      end
  | TTuple components =>
      match value with
      | VList fields =>
          ps <- (fix prepareFields (layout : list AbiType) (vs : list AbiValue)
                   {struct vs} : result (list PreparedParam) :=
                   match layout, vs with
                   | [], [] => Ok []
                   | t :: layout', v :: vs' =>
                       p <- prepareParam t v ;;
                       ps <- prepareFields layout' vs' ;;
                       Ok (p :: ps)
                   | _, _ => Err LayoutMismatch
                   end) components fields ;;
          Ok (tupleParam ps)
      | _ => Err LayoutMismatch
      end
  | TTupleArray components =>
      match value with
      | VList items =>
          ps <- (fix prepareItems (vs : list AbiValue) : result (list PreparedParam) :=
                   match vs with
                   | [] => Ok []
                   | v :: vs' =>
                       p <- prepareParam (TTuple components) v ;;
                       ps <- prepareItems vs' ;;
                       Ok (p :: ps)
                   end) items ;;
          Ok (arrayParam ps)
      | _ => Err LayoutMismatch
      end
  end.

(** Modelled from the spec: the fields of a tuple against its layout, as in
    [prepareParam]. *)
Fixpoint prepareParams (layout : list AbiType) (vs : list AbiValue)
  : result (list PreparedParam) :=
  match layout, vs with
  | [], [] => Ok []
  | t :: layout', v :: vs' =>
      p <- prepareParam t v ;;
      ps <- prepareParams layout' vs' ;;
      Ok (p :: ps)
  | _, _ => Err LayoutMismatch
  end.

(** Modelled from the spec: the elements of an array, each against the tuple
    layout, as in [prepareParam]. *)
Fixpoint prepareItems (components : list AbiType) (vs : list AbiValue)
  : result (list PreparedParam) :=
  match vs with
  | [] => Ok []
  | v :: vs' =>
      p <- prepareParam (TTuple components) v ;;
      ps <- prepareItems components vs' ;;
      Ok (p :: ps)
  end.

(** Modelled from the spec: [encode_tuple(fields, layout)]. *)
Definition encode_tuple (fields : list AbiValue) (layout : list AbiType) : result Hex :=
  ps <- prepareParams layout fields ;;
  Ok (encoded (tupleParam ps)).

(** Modelled from the spec: [encode_array_of_tuples(items, tuple_layout)]. *)
Definition encode_array_of_tuples (items : list AbiValue) (tuple_layout : list AbiType)
  : result Hex :=
  p <- prepareParam (TTupleArray tuple_layout) (VList items) ;;
  Ok (encoded p).

(** Modelled from the spec: viem's [encodeAbiParameters params values], the
    values as the fields of one tuple. *)
Definition encodeAbiParameters (params : list AbiType) (values : list AbiValue)
  : result Hex :=
  encode_tuple values params.

(** Modelled from the spec: [encode_function_call(selector_bytes, ordered_args)]
    is the framing of viem's [encodeFunctionData], which is not among the
    sources: the selector, then the arguments encoded as the fields of one
    implicit tuple. *)
Definition encode_function_call (selector_bytes : Hex) (ordered_args : list AbiValue)
  (layout : list AbiType) : result Hex :=
  data <- encode_tuple ordered_args layout ;;
  Ok (concat [selector_bytes; data]).

(** ** The script *)

Record UserOperation : Type := {
  sender : Hex;
  nonce : N;
  initCode : Hex;
  callData : Hex;
  callGasLimit : N;
  verificationGasLimit : N;
  preVerificationGas : N;
  maxFeePerGas : N;
  maxPriorityFeePerGas : N;
  paymasterAndData : Hex;
  signature : Hex
}.

(** A function item of an ABI description: its name and the types of its
    inputs (the component names only serve to read an object's fields). *)
Record AbiFunction : Type := {
  name : String.string;
  inputs : list AbiType
}.

(** Modelled from the spec: the canonical type string of the function
    signature, as viem formats it for the selector. *)
Fixpoint formatAbiType (t : AbiType) : String.string :=
  match t with
  | TAddress => "address"
  | TUint256 => "uint256"
  | TBytes32 => "bytes32"
  | TBytes => "bytes"
  | TTuple components =>
      String.append "(" (String.append (String.concat "," (map formatAbiType components)) ")")
  | TTupleArray components =>
      String.append "(" (String.append (String.concat "," (map formatAbiType components)) ")[]")
  end%string.

(** Modelled from the spec: the signature string, name and input types. *)
Definition formatAbiItem (f : AbiFunction) : String.string :=
  String.append (name f)
    (String.append "(" (String.append (String.concat "," (map formatAbiType (inputs f))) ")")).

(** The components of [struct UserOperation] in the constant [abi]. *)
Definition userOperationComponents : list AbiType :=
  [TAddress; TUint256; TBytes; TBytes; TUint256; TUint256; TUint256; TUint256;
   TUint256; TBytes; TBytes].

(** The one function of the constant [abi]: [handleOps(ops, beneficiary)]. *)
Definition abi : AbiFunction :=
  {| name := "handleOps";
     inputs := [TTupleArray userOperationComponents; TAddress] |}.

(** The operation object as the encoder reads it against
    [userOperationComponents]: its fields by name, in component order. *)
Definition userOperationValue (op : UserOperation) : AbiValue :=
  VList [VHex (sender op); VBigInt (nonce op); VHex (initCode op); VHex (callData op);
         VBigInt (callGasLimit op); VBigInt (verificationGasLimit op);
         VBigInt (preVerificationGas op); VBigInt (maxFeePerGas op);
         VBigInt (maxPriorityFeePerGas op); VHex (paymasterAndData op);
         VHex (signature op)].

(** [userOperation.signature = s]. *)
Definition withSignature (op : UserOperation) (s : Hex) : UserOperation :=
  {| sender := sender op;
     nonce := nonce op;
     initCode := initCode op;
     callData := callData op;
     callGasLimit := callGasLimit op;
     verificationGasLimit := verificationGasLimit op;
     preVerificationGas := preVerificationGas op;
     maxFeePerGas := maxFeePerGas op;
     maxPriorityFeePerGas := maxPriorityFeePerGas op;
     paymasterAndData := paymasterAndData op;
     signature := s |}.

(** The second part of [initCode] in [main]: selector 0x5fbfb9cf, an owner
    address and a zero salt, 68 bytes. *)
Definition createAccountCall : Hex :=
  [Init.Byte.x5f; Init.Byte.xbf; Init.Byte.xb9; Init.Byte.xcf]
  ++ zeros 12
  ++ [Init.Byte.x05; Init.Byte.x03; Init.Byte.xf3; Init.Byte.xdc; Init.Byte.x17;
      Init.Byte.xc5; Init.Byte.x44; Init.Byte.xa9; Init.Byte.x2e; Init.Byte.xd0;
      Init.Byte.xae; Init.Byte.x96; Init.Byte.x66; Init.Byte.x00; Init.Byte.x0c;
      Init.Byte.x9b; Init.Byte.x6e; Init.Byte.xe5; Init.Byte.x91; Init.Byte.x12]
  ++ zeros 32.

(** The beneficiary [main] passes to [handleOps]. *)
Definition beneficiaryAddress : Hex :=
  [Init.Byte.x43; Init.Byte.x37; Init.Byte.x04; Init.Byte.xc4; Init.Byte.x0f;
   Init.Byte.x80; Init.Byte.xcb; Init.Byte.xff; Init.Byte.x02; Init.Byte.xe8;
   Init.Byte.x6f; Init.Byte.xd3; Init.Byte.x6b; Init.Byte.xc8; Init.Byte.xba;
   Init.Byte.xc5; Init.Byte.xe3; Init.Byte.x1e; Init.Byte.xb0; Init.Byte.xc1].

(** The options [main] reads from the command line, as yargs hands them over:
    a string, or undefined when the flag was not given. *)
Record Argv : Type := {
  argv_entry_point : option string;
  argv_smart_account : option string;
  argv_factory : option string
}.

(** The value of a flag that passes the test [!argv[flag]]: undefined and the
    empty string are falsy. *)
Definition readFlag (flag : option string) : option string :=
  match flag with
  | None => None
  | Some text => if String.eqb text "" then None else Some text
  end.

(** What [main] writes with [console.log]: a line of text, the inspected
    operation after the heading [UserOperation:], the calldata after the
    heading [HandleOps Calldata:]. *)
Inductive LogEntry : Type :=
| LogText (line : string)
| LogUserOperation (op : UserOperation)
| LogCalldata (calldata : Hex).

(** What can be thrown on the way: by [getAddress], or by the encoder. *)
Inductive Failure : Type :=
| InvalidAddress
| Encoding (e : EncodingError).

(** How [main] ends: it returns, it leaves through [process.exit], or it
    throws. *)
Inductive Completion : Type :=
| Returned
| Exited (code : N)
| Threw (e : Failure).

Record Run : Type := {
  printed : list LogEntry;
  completion : Completion
}.

Section Script.

(** The hash primitive of viem. *)
Variable keccak256 : Hex -> Hex.

(** [kakarotChain.id], a constant of [./constants]. *)
Variable kakarotChain_id : N.

Definition packUserOpV06 (userOperation : UserOperation) : result Hex :=
  let hashedInitCode := keccak256 (initCode userOperation) in
  let hashedCallData := keccak256 (callData userOperation) in
  let hashedPaymasterAndData := keccak256 (paymasterAndData userOperation) in
  encodeAbiParameters
    [TAddress; TUint256; TBytes32; TBytes32; TUint256; TUint256; TUint256;
     TUint256; TUint256; TBytes32]
    [VHex (sender userOperation);
     VBigInt (nonce userOperation);
     VHex hashedInitCode;
     VHex hashedCallData;
     VBigInt (callGasLimit userOperation);
     VBigInt (verificationGasLimit userOperation);
     VBigInt (preVerificationGas userOperation);
     VBigInt (maxFeePerGas userOperation);
     VBigInt (maxPriorityFeePerGas userOperation);
     VHex hashedPaymasterAndData].

Definition getUserOperationHashV06 (userOperation : UserOperation) (entryPoint : Hex)
  : result Hex :=
  packed <- packUserOpV06 userOperation ;;
  encoded <- encodeAbiParameters
               [TBytes32; TAddress; TUint256]
               [VHex (keccak256 packed); VHex entryPoint; VBigInt kakarotChain_id] ;;
  Ok (keccak256 encoded).

(** Modelled from the spec: viem's selector, the first four bytes of the hash
    of the signature string. *)
Definition toFunctionSelector (f : AbiFunction) : Hex :=
  firstn 4 (keccak256 (String.list_byte_of_string (formatAbiItem f))).

(** Modelled from the spec: viem's [encodeFunctionData] for the one function of
    an ABI: [encode_function_call] with the function's selector. *)
Definition encodeFunctionData (f : AbiFunction) (args : list AbiValue) : result Hex :=
  encode_function_call (toFunctionSelector f) args (inputs f).

(** The payload [main] prints: [handleOps([userOperation], beneficiary)]. *)
Definition handleOpsCalldata (userOperation : UserOperation) (beneficiary : Hex)
  : result Hex :=
  encodeFunctionData abi [VList [userOperationValue userOperation]; VHex beneficiary].

(** The operation [main] builds before it signs it; [parseGwei "1"] is 10^9
    and [parseGwei "0.15"] is 15 * 10^7. *)
Definition unsignedUserOperation (smartAccount factory : Hex) : UserOperation :=
  {| sender := smartAccount;
     nonce := 0;
     initCode := concat [factory; createAccountCall];
     callData := [];
     callGasLimit := 350000;
     verificationGasLimit := 550000;
     preVerificationGas := 250000;
     maxFeePerGas := 1000000000;
     maxPriorityFeePerGas := 150000000;
     paymasterAndData := [];
     signature := [] |}.

(** [signMessage] with the owner's key, the signer of viem. *)
Variable signMessage : Hex -> Hex.

(** [main] after it has read the three addresses: the printed calldata. *)
Definition main (entryPoint smartAccount factory : Hex) : result Hex :=
  let userOperation := unsignedUserOperation smartAccount factory in
  digest <- getUserOperationHashV06 userOperation entryPoint ;;
  let userOperation := withSignature userOperation (signMessage digest) in
  handleOpsCalldata userOperation beneficiaryAddress.

(** [getAddress] of viem: the address a string denotes, when it denotes one. *)
Variable getAddress : string -> option Hex.

(** The end of [main], once the three addresses are read: hash, sign, print
    the operation, encode, print the calldata. *)
Definition submitUserOperation (entryPoint smartAccount factory : Hex) : Run :=
  let userOperation := unsignedUserOperation smartAccount factory in
  match getUserOperationHashV06 userOperation entryPoint with
  | Err e => {| printed := []; completion := Threw (Encoding e) |}
  | Ok digest =>
      let userOperation := withSignature userOperation (signMessage digest) in
      match handleOpsCalldata userOperation beneficiaryAddress with
      | Err e =>
          {| printed := [LogUserOperation userOperation];
             completion := Threw (Encoding e) |}
      | Ok calldata =>
          {| printed := [LogUserOperation userOperation; LogCalldata calldata];
             completion := Returned |}
      end
  end.

(** [main] from the command line: each flag is tested, then read as an
    address, in the order entry-point, smart-account, factory. *)
Definition runMain (argv : Argv) : Run :=
  match readFlag (argv_entry_point argv) with
  | None =>
      {| printed := [LogText "missing flag `--entry-point`"]; completion := Exited 0 |}
  | Some entryPointText =>
      match getAddress entryPointText with
      | None => {| printed := []; completion := Threw InvalidAddress |}
      | Some entryPoint =>
          match readFlag (argv_smart_account argv) with
          | None =>
              {| printed := [LogText "missing flag `--smart-account`"];
                 completion := Exited 0 |}
          | Some smartAccountText =>
              match getAddress smartAccountText with
              | None => {| printed := []; completion := Threw InvalidAddress |}
              | Some smartAccount =>
                  match readFlag (argv_factory argv) with
                  | None =>
                      {| printed := [LogText "missing flag `--factory`"];
                         completion := Exited 0 |}
                  | Some factoryText =>
                      match getAddress factoryText with
                      | None => {| printed := []; completion := Threw InvalidAddress |}
                      | Some factory =>
                          submitUserOperation entryPoint smartAccount factory
                      end
                  end
              end
          end
      end
  end.

End Script.

(** ** The data model's invariant *)

Definition isAddress (a : Hex) : bool := size a =? 20.

Definition isUint256 (n : N) : bool := (n <=? uint256_max)%N.

(** The sender is a 20-byte address and every integer fits in 256 bits. *)
Definition wellFormed (op : UserOperation) : bool :=
  isAddress (sender op) && isUint256 (nonce op) && isUint256 (callGasLimit op)
  && isUint256 (verificationGasLimit op) && isUint256 (preVerificationGas op)
  && isUint256 (maxFeePerGas op) && isUint256 (maxPriorityFeePerGas op).

(** What the packed tuple is said to be: ten words, the signature left out. *)
Definition packedWords (keccak256 : Hex -> Hex) (op : UserOperation) : list Hex :=
  [padLeft 32 (sender op);
   numberToHex 32 (nonce op);
   keccak256 (initCode op);
   keccak256 (callData op);
   numberToHex 32 (callGasLimit op);
   numberToHex 32 (verificationGasLimit op);
   numberToHex 32 (preVerificationGas op);
   numberToHex 32 (maxFeePerGas op);
   numberToHex 32 (maxPriorityFeePerGas op);
   keccak256 (paymasterAndData op)].

(** The message of the final hash: digest, entry point, chain id. *)
Definition digestMessage (keccak256 : Hex -> Hex) (chainId : N) (op : UserOperation)
  (entryPoint : Hex) : Hex :=
  keccak256 (concat (packedWords keccak256 op))
  ++ (zeros 12 ++ entryPoint)
  ++ numberToHex 32 chainId.

(** Two byte strings on which a hash collides. *)
Definition collision (hash : Hex -> Hex) (x y : Hex) : Prop :=
  x <> y /\ hash x = hash y.

(** Two operations that differ at most in their signature. *)
Definition agreeExceptSignature (op1 op2 : UserOperation) : Prop :=
  sender op1 = sender op2 /\ nonce op1 = nonce op2
  /\ initCode op1 = initCode op2 /\ callData op1 = callData op2
  /\ callGasLimit op1 = callGasLimit op2
  /\ verificationGasLimit op1 = verificationGasLimit op2
  /\ preVerificationGas op1 = preVerificationGas op2
  /\ maxFeePerGas op1 = maxFeePerGas op2
  /\ maxPriorityFeePerGas op1 = maxPriorityFeePerGas op2
  /\ paymasterAndData op1 = paymasterAndData op2.

(** Two operations with the same scalars. *)
Definition agreeOnScalars (op1 op2 : UserOperation) : Prop :=
  sender op1 = sender op2 /\ nonce op1 = nonce op2
  /\ callGasLimit op1 = callGasLimit op2
  /\ verificationGasLimit op1 = verificationGasLimit op2
  /\ preVerificationGas op1 = preVerificationGas op2
  /\ maxFeePerGas op1 = maxFeePerGas op2
  /\ maxPriorityFeePerGas op1 = maxPriorityFeePerGas op2.




(** The bytes a field contributes to the encoding of its tuple: its head
    word, and its tail when it has one. *)
Definition encodedSize (p : PreparedParam) : nat :=
  if dynamic p then 32 + size (encoded p) else size (encoded p).

(** The number of bytes a byte-string field takes in a tail region. *)
Definition tailSize (data : Hex) : nat := 32 + ceil32 (size data).

(** The payload size the round-trip scenario states for one operation: the
    selector, two head words, the count word, eleven head words, and the tail
    of each of the four byte strings, counted by [tail]. *)
Definition statedPayloadSize (tail : Hex -> nat) (op : UserOperation) : nat :=
  4 + 32 * 2 + 32 + 32 * 11
  + (tail (initCode op) + tail (callData op) + tail (paymasterAndData op)
     + tail (signature op)).

(** A stand-in for the hash in examples: the value of the input read in base
    257, on 32 bytes.  Inputs that differ in leading zero bytes collide. *)
Definition sampleHash (h : Hex) : Hex :=
  numberToHex 32 (fold_left (fun acc b => (acc * 257 + Byte.to_N b)%N) h 0%N).

Definition sampleChainId : N := 1802203764.

Definition sampleAddress (last : byte) : Hex := zeros 19 ++ [last].

Definition sampleOperation : UserOperation :=
  {| sender := sampleAddress Init.Byte.x01;
     nonce := 0;
     initCode := [Init.Byte.xaa; Init.Byte.xbb];
     callData := [Init.Byte.xcc];
     callGasLimit := 350000;
     verificationGasLimit := 550000;
     preVerificationGas := 250000;
     maxFeePerGas := 1000000000;
     maxPriorityFeePerGas := 150000000;
     paymasterAndData := [];
     signature := repeat Init.Byte.x1b 65 |}.

(** The sample operation before it is signed. *)
Definition unsignedOperation : UserOperation := withSignature sampleOperation [].

(** A signer for examples: 65 bytes whatever the digest. *)
Definition sampleSigner (digest : Hex) : Hex := repeat Init.Byte.x1b 65.

(** The sample operation with zero bytes put before its byte strings. *)
Definition zeroExtendedOperation : UserOperation :=
  {| sender := sender sampleOperation;
     nonce := nonce sampleOperation;
     initCode := x00 :: initCode sampleOperation;
     callData := x00 :: x00 :: callData sampleOperation;
     callGasLimit := callGasLimit sampleOperation;
     verificationGasLimit := verificationGasLimit sampleOperation;
     preVerificationGas := preVerificationGas sampleOperation;
     maxFeePerGas := maxFeePerGas sampleOperation;
     maxPriorityFeePerGas := maxPriorityFeePerGas sampleOperation;
     paymasterAndData := [x00];
     signature := signature sampleOperation |}.

Definition sampleEntryPoint : Hex := sampleAddress Init.Byte.xe7.

Definition otherEntryPoint : Hex := sampleAddress Init.Byte.xe8.

Definition sampleBeneficiary : Hex := sampleAddress Init.Byte.xc1.

(** An operation the encoder refuses for a value out of range: a sender wider
    than 20 bytes, or an integer above 2^256-1. *)
Definition outOfRange (op : UserOperation) : bool :=
  negb (size (sender op) <=? 20) || negb (isUint256 (nonce op))
  || negb (isUint256 (callGasLimit op)) || negb (isUint256 (verificationGasLimit op))
  || negb (isUint256 (preVerificationGas op)) || negb (isUint256 (maxFeePerGas op))
  || negb (isUint256 (maxPriorityFeePerGas op)).

(** [argv[flag]] for the three flags [main] reads. *)
Definition argvFlag (argv : Argv) (flag : string) : option string :=
  if String.eqb flag "entry-point" then argv_entry_point argv
  else if String.eqb flag "smart-account" then argv_smart_account argv
  else if String.eqb flag "factory" then argv_factory argv
  else None.

(** Whether a calldata was printed. *)
Definition printsCalldata (r : Run) : bool :=
  existsb (fun entry => match entry with LogCalldata _ => true | _ => false end)
    (printed r).

(** An address reader for examples: the first byte of the text, after 19 zero
    bytes; the empty text is refused. *)
Definition sampleGetAddress (text : string) : option Hex :=
  match list_byte_of_string text with
  | [] => None
  | b :: _ => Some (sampleAddress b)
  end.

Definition sampleArgv : Argv :=
  {| argv_entry_point := Some "e"%string;
     argv_smart_account := Some "s"%string;
     argv_factory := Some "f"%string |}.

(** The sample command line without its first flag. *)
Definition argvWithoutEntryPoint : Argv :=
  {| argv_entry_point := None;
     argv_smart_account := Some "s"%string;
     argv_factory := Some "f"%string |}.

(** The sample operation with a nonce of 2^256. *)
Definition overflowingOperation : UserOperation :=
  {| sender := sender sampleOperation;
     nonce := 2 ^ 256;
     initCode := initCode sampleOperation;
     callData := callData sampleOperation;
     callGasLimit := callGasLimit sampleOperation;
     verificationGasLimit := verificationGasLimit sampleOperation;
     preVerificationGas := preVerificationGas sampleOperation;
     maxFeePerGas := maxFeePerGas sampleOperation;
     maxPriorityFeePerGas := maxPriorityFeePerGas sampleOperation;
     paymasterAndData := paymasterAndData sampleOperation;
     signature := signature sampleOperation |}.






(** * Properties *)

(** ** Byte strings and big-endian words *)

Lemma zeros_length (n : nat) : size (zeros n) = n.
Proof. apply repeat_length. Qed.

Lemma numberToHex_length (sz : nat) : forall value, size (numberToHex sz value) = sz.
Proof.
  unfold size. induction sz as [|k IH]; intros value; simpl.
  - reflexivity.
  - rewrite length_app, IH. simpl. lia.
Qed.

Lemma byte_of_N_to_N (n : N) : Byte.to_N (byte_of_N n) = (n mod 256)%N.
Proof.
  unfold byte_of_N.
  destruct (Byte.of_N (n mod 256)) as [b|] eqn:E.
  - now apply Byte.to_of_N.
  - apply Byte.of_N_None_iff in E.
    pose proof (N.mod_upper_bound n 256). lia.
Qed.

Lemma hexToBigInt_snoc (h : Hex) (b : byte) :
  hexToBigInt (h ++ [b]) = (hexToBigInt h * 256 + Byte.to_N b)%N.
Proof. unfold hexToBigInt. now rewrite fold_left_app. Qed.

(** Reading back the [sz] big-endian bytes of [value] gives [value] modulo
    256^sz. *)
Lemma hexToBigInt_numberToHex (sz : nat) :
  forall value, hexToBigInt (numberToHex sz value) = (value mod 256 ^ N.of_nat sz)%N.
Proof.
  induction sz as [|k IH]; intros value.
  - simpl. now rewrite N.mod_1_r.
  - cbn [numberToHex]. rewrite hexToBigInt_snoc, IH, byte_of_N_to_N.
    replace (N.of_nat (S k)) with (N.succ (N.of_nat k)) by lia.
    rewrite N.pow_succ_r'.
    rewrite (N.Div0.mod_mul_r value 256 (256 ^ N.of_nat k)). lia.
Qed.

Lemma uint256_max_spec (n : N) : (n <= uint256_max <-> n < 256 ^ N.of_nat 32)%N.
Proof.
  unfold uint256_max.
  change (256 ^ N.of_nat 32)%N with (2 ^ 256)%N.
  assert (0 < 2 ^ 256)%N by (apply N.neq_0_lt_0, N.pow_nonzero; discriminate).
  lia.
Qed.

Lemma hexToBigInt_word (n : N) :
  (n <= uint256_max)%N -> hexToBigInt (numberToHex 32 n) = n.
Proof.
  intros H. rewrite hexToBigInt_numberToHex.
  apply N.mod_small. now apply uint256_max_spec.
Qed.

Lemma numberToHex_word_inj (n m : N) :
  (n <= uint256_max)%N -> (m <= uint256_max)%N ->
  numberToHex 32 n = numberToHex 32 m -> n = m.
Proof.
  intros Hn Hm E.
  rewrite <- (hexToBigInt_word Hn), <- (hexToBigInt_word Hm). now rewrite E.
Qed.

Lemma numberToHex_zero (sz : nat) : numberToHex sz 0 = zeros sz.
Proof.
  induction sz as [|k IH]; simpl.
  - reflexivity.
  - change (0 / 256)%N with 0%N. rewrite IH.
    change (byte_of_N 0) with x00.
    unfold zeros. change [x00] with (repeat x00 1).
    rewrite <- repeat_app. f_equal. lia.
Qed.

#[global] Arguments numberToHex : simpl never.

Lemma padLeft_length (sz : nat) (h : Hex) : size h <= sz -> size (padLeft sz h) = sz.
Proof.
  intros H. unfold padLeft, size in *. rewrite length_app.
  fold (size (zeros (sz - length h))). rewrite zeros_length. lia.
Qed.

Lemma padRight_length (sz : nat) (h : Hex) : size h <= sz -> size (padRight sz h) = sz.
Proof.
  intros H. unfold padRight, size in *. rewrite length_app.
  fold (size (zeros (sz - length h))). rewrite zeros_length. lia.
Qed.

Lemma padLeft_address (a : Hex) : isAddress a = true -> padLeft 32 a = zeros 12 ++ a.
Proof.
  unfold isAddress. intros H. apply Nat.eqb_eq in H.
  unfold padLeft. now rewrite H.
Qed.

(** [ceil32 n] is the least multiple of 32 above or at [n]. *)
Lemma ceil32_spec (n : nat) :
  ceil32 n = 32 * ((n + 31) / 32) /\ ceil32 n mod 32 = 0 /\ n <= ceil32 n < n + 32.
Proof.
  unfold ceil32.
  pose proof (Nat.div_mod_eq (n + 31) 32) as D.
  pose proof (Nat.mod_upper_bound (n + 31) 32) as U.
  repeat split; try lia.
  apply Nat.Div0.mod_mul.
Qed.

(** ** The encoder *)

Lemma encode_static_address (a : Hex) :
  isAddress a = true -> encode_static (VHex a) TAddress = Ok (zeros 12 ++ a).
Proof.
  intros H. rewrite <- (padLeft_address a H).
  unfold isAddress in H. apply Nat.eqb_eq in H.
  unfold encode_static. rewrite H. reflexivity.
Qed.

Lemma encode_static_uint256 (n : N) :
  isUint256 n = true -> encode_static (VBigInt n) TUint256 = Ok (numberToHex 32 n).
Proof. unfold isUint256, encode_static. now intros ->. Qed.

Lemma encode_static_bytes32 (h : Hex) :
  size h = 32 -> encode_static (VHex h) TBytes32 = Ok h.
Proof. unfold encode_static. now intros ->. Qed.

(** Every word [encode_static] returns has 32 bytes. *)
Lemma encode_static_length (v : AbiValue) (t : AbiType) (w : Hex) :
  encode_static v t = Ok w -> size w = 32.
Proof.
  destruct t, v; unfold encode_static; try discriminate.
  - destruct (size h <=? 20) eqn:E; [|discriminate].
    intros E'. assert (w = padLeft 32 h) as -> by congruence.
    apply padLeft_length. apply Nat.leb_le in E. lia.
  - destruct (n <=? uint256_max)%N; [|discriminate].
    intros E'. assert (w = numberToHex 32 n) as -> by congruence.
    apply numberToHex_length.
  - destruct (size h =? 32) eqn:E; [|discriminate].
    intros E'. assert (w = h) as -> by congruence.
    now apply Nat.eqb_eq.
Qed.

Lemma prepareParam_tuple (components : list AbiType) (fields : list AbiValue) :
  prepareParam (TTuple components) (VList fields)
  = (ps <- prepareParams components fields ;; Ok (tupleParam ps)).
Proof.
  cbn [prepareParam]. f_equal.
  revert components. induction fields as [|v vs IH]; intros [|t ts]; try reflexivity.
  cbn [prepareParams]. now rewrite <- IH.
Qed.

Lemma prepareParam_array (components : list AbiType) (items : list AbiValue) :
  prepareParam (TTupleArray components) (VList items)
  = (ps <- prepareItems components items ;; Ok (arrayParam ps)).
Proof.
  cbn [prepareParam]. f_equal.
  induction items as [|v vs IH]; [reflexivity|].
  cbn [prepareItems]. now rewrite <- IH.
Qed.

Lemma wellFormed_fields (op : UserOperation) :
  wellFormed op = true ->
  isAddress (sender op) = true /\ isUint256 (nonce op) = true
  /\ isUint256 (callGasLimit op) = true /\ isUint256 (verificationGasLimit op) = true
  /\ isUint256 (preVerificationGas op) = true /\ isUint256 (maxFeePerGas op) = true
  /\ isUint256 (maxPriorityFeePerGas op) = true.
Proof.
  unfold wellFormed. intros H.
  repeat (apply andb_true_iff in H; destruct H as [H ?]). tauto.
Qed.

(** ** Head and tail regions *)

Lemma size_app (a b : Hex) : size (a ++ b) = size a + size b.
Proof. apply length_app. Qed.

Lemma staticSize_from (ps : list PreparedParam) (acc : nat) :
  fold_left (fun acc p => if dynamic p then acc + 32 else acc + size (encoded p)) ps acc
  = acc + staticSize ps.
Proof.
  unfold staticSize. revert acc.
  induction ps as [|p ps IH]; intros acc; simpl; [lia|].
  rewrite IH, (IH (if dynamic p then 32 else size (encoded p))).
  destruct (dynamic p); lia.
Qed.

Lemma staticSize_cons (p : PreparedParam) (ps : list PreparedParam) :
  staticSize (p :: ps) = (if dynamic p then 32 else size (encoded p)) + staticSize ps.
Proof.
  unfold staticSize at 1. simpl. rewrite staticSize_from.
  destruct (dynamic p); lia.
Qed.

(** The head words fill exactly the head region, and there is one per field. *)
Lemma splitParams_heads (ps : list PreparedParam) :
  forall headSize dynamicSize heads tails,
    splitParams headSize dynamicSize ps = (heads, tails) ->
    length heads = length ps /\ size (concat heads) = staticSize ps.
Proof.
  induction ps as [|p ps IH]; intros hs ds heads tails E; simpl in E.
  - injection E as <- <-. now split.
  - rewrite staticSize_cons. destruct (dynamic p).
    + destruct (splitParams hs (ds + size (encoded p)) ps) as [h t] eqn:S.
      injection E as <- <-. destruct (IH _ _ _ _ S) as [L Z].
      split; [simpl; lia|].
      unfold concat in *. cbn [List.concat]. rewrite size_app, Z.
      now rewrite numberToHex_length.
    + destruct (splitParams hs ds ps) as [h t] eqn:S.
      injection E as <- <-. destruct (IH _ _ _ _ S) as [L Z].
      split; [simpl; lia|].
      unfold concat in *. cbn [List.concat]. now rewrite size_app, Z.
Qed.

Lemma splitParams_tails (ps : list PreparedParam) :
  forall headSize dynamicSize heads tails,
    splitParams headSize dynamicSize ps = (heads, tails) ->
    staticSize ps + size (concat tails) = list_sum (map encodedSize ps).
Proof.
  induction ps as [|p ps IH]; intros hs ds heads tails E; simpl in E.
  - injection E as <- <-. reflexivity.
  - rewrite staticSize_cons. unfold list_sum in *. cbn [map fold_right].
    unfold encodedSize at 1.
    destruct (dynamic p).
    + destruct (splitParams hs (ds + size (encoded p)) ps) as [h t] eqn:S.
      injection E as <- <-. specialize (IH _ _ _ _ S).
      unfold concat in *. cbn [List.concat]. rewrite size_app. lia.
    + destruct (splitParams hs ds ps) as [h t] eqn:S.
      injection E as <- <-. specialize (IH _ _ _ _ S). lia.
Qed.

(** The size of a head/tail encoding is the sum of what its fields take. *)
Lemma encodeParams_size (ps : list PreparedParam) :
  size (encodeParams ps) = list_sum (map encodedSize ps).
Proof.
  unfold encodeParams.
  destruct (splitParams (staticSize ps) 0 ps) as [heads tails] eqn:S.
  unfold concat. rewrite concat_app. rewrite size_app.
  destruct (splitParams_heads _ _ _ S) as [_ Z]. unfold concat in Z. rewrite Z.
  exact (splitParams_tails _ _ _ S).
Qed.



Lemma splitParams_static (ps : list PreparedParam) :
  existsb dynamic ps = false ->
  forall headSize dynamicSize,
    splitParams headSize dynamicSize ps = (map encoded ps, []).
Proof.
  induction ps as [|p ps IH]; intros E hs ds; [reflexivity|].
  cbn [existsb] in E. apply orb_false_iff in E. destruct E as [D E].
  cbn [splitParams map]. now rewrite D, (IH E).
Qed.

(** A tuple is encoded head first, then tails, whether it has tails or not. *)
Lemma tupleParam_encoded (ps : list PreparedParam) :
  encoded (tupleParam ps) = encodeParams ps.
Proof.
  unfold tupleParam. cbn [encoded].
  destruct (existsb dynamic ps) eqn:E; [reflexivity|].
  unfold encodeParams. rewrite (splitParams_static ps E).
  now rewrite app_nil_r.
Qed.

(** ** Static and dynamic types *)







Lemma sampleHash_size (h : Hex) : size (sampleHash h) = 32.
Proof. apply numberToHex_length. Qed.

Section ScriptProperties.

Variable keccak256 : Hex -> Hex.

(** The digest of the hash primitive has 32 bytes. *)
Hypothesis keccak256_size : forall h, size (keccak256 h) = 32.

Lemma packedWords_length (op : UserOperation) :
  isAddress (sender op) = true -> size (concat (packedWords keccak256 op)) = 320.
Proof.
  intros Ha. unfold packedWords, concat, size. cbn [List.concat].
  rewrite !length_app.
  fold (size (padLeft 32 (sender op))). rewrite padLeft_length.
  2:{ unfold isAddress in Ha. apply Nat.eqb_eq in Ha. lia. }
  repeat match goal with
         | |- context [length (numberToHex 32 ?n)] =>
             change (length (numberToHex 32 n)) with (size (numberToHex 32 n));
             rewrite (numberToHex_length 32 n)
         | |- context [length (keccak256 ?h)] =>
             change (length (keccak256 h)) with (size (keccak256 h));
             rewrite (keccak256_size h)
         end.
  reflexivity.
Qed.

Lemma packUserOpV06_ok (op : UserOperation) :
  wellFormed op = true ->
  packUserOpV06 keccak256 op = Ok (concat (packedWords keccak256 op)).
Proof.
  intros W. apply wellFormed_fields in W.
  destruct W as (Ha & Hn & H1 & H2 & H3 & H4 & H5).
  unfold packUserOpV06, encodeAbiParameters, encode_tuple.
  cbn [prepareParams prepareParam].
  rewrite (encode_static_address _ Ha), <- (padLeft_address _ Ha).
  rewrite !encode_static_bytes32 by apply keccak256_size.
  rewrite (encode_static_uint256 _ Hn), (encode_static_uint256 _ H1),
    (encode_static_uint256 _ H2), (encode_static_uint256 _ H3),
    (encode_static_uint256 _ H4), (encode_static_uint256 _ H5).
  reflexivity.
Qed.

Lemma getUserOperationHashV06_ok (chainId : N) (op : UserOperation) (entryPoint : Hex) :
  wellFormed op = true -> isAddress entryPoint = true -> isUint256 chainId = true ->
  getUserOperationHashV06 keccak256 chainId op entryPoint
  = Ok (keccak256 (digestMessage keccak256 chainId op entryPoint)).
Proof.
  intros W He Hc.
  unfold getUserOperationHashV06. rewrite (packUserOpV06_ok op W).
  cbn [bind]. unfold encodeAbiParameters, encode_tuple.
  cbn [prepareParams prepareParam].
  rewrite encode_static_bytes32 by apply keccak256_size.
  rewrite (encode_static_address _ He), (encode_static_uint256 _ Hc).
  cbn [bind]. unfold tupleParam, digestMessage.
  cbn [existsb dynamic encoded orb map]. unfold concat at 1. cbn [List.concat].
  now rewrite app_nil_r.
Qed.

(** Two concatenations with left parts of one length agree part by part. *)
Lemma app_inj_length (A : Type) (l1 l2 r1 r2 : list A) :
  length l1 = length l2 -> l1 ++ r1 = l2 ++ r2 -> l1 = l2 /\ r1 = r2.
Proof.
  revert l2. induction l1 as [|a l1 IH]; intros [|b l2] L E; try discriminate.
  - now split.
  - simpl in L, E. injection E as -> E. injection L as L.
    destruct (IH l2 L E) as [-> ->]. now split.
Qed.


(** C1. For a well-formed operation, a 20-byte entry point and a chain id
    that fits in 256 bits, [getUserOperationHashV06] returns the hash of a
    96-byte message made of three 32-byte words: the hash of the packed
    tuple, the entry point after twelve zero bytes, and the chain id as a
    big-endian unsigned integer. *)
Theorem getUserOperationHashV06_digest (chainId : N) (op : UserOperation)
  (entryPoint : Hex) :
  wellFormed op = true -> isAddress entryPoint = true -> isUint256 chainId = true ->
  exists packed : Hex,
    packUserOpV06 keccak256 op = Ok packed
    /\ size (keccak256 packed) = 32
    /\ size (zeros 12 ++ entryPoint) = 32
    /\ size (numberToHex 32 chainId) = 32
    /\ hexToBigInt (numberToHex 32 chainId) = chainId
    /\ size (keccak256 packed ++ (zeros 12 ++ entryPoint) ++ numberToHex 32 chainId) = 96
    /\ getUserOperationHashV06 keccak256 chainId op entryPoint
       = Ok (keccak256 (keccak256 packed ++ (zeros 12 ++ entryPoint)
                        ++ numberToHex 32 chainId)).
Proof.
  intros W He Hc. exists (concat (packedWords keccak256 op)).
  assert (Le : size (zeros 12 ++ entryPoint) = 32).
  { rewrite <- (padLeft_address _ He). apply padLeft_length.
    unfold isAddress in He. apply Nat.eqb_eq in He. lia. }
  split; [now apply packUserOpV06_ok|].
  split; [apply keccak256_size|].
  split; [exact Le|].
  split; [apply numberToHex_length|].
  split; [apply hexToBigInt_word; now apply N.leb_le|].
  split.
  - unfold size in *. rewrite !length_app.
    rewrite length_app in Le. rewrite Le.
    fold (size (keccak256 (concat (packedWords keccak256 op)))).
    fold (size (numberToHex 32 chainId)).
    now rewrite keccak256_size, numberToHex_length.
  - now apply getUserOperationHashV06_ok.
Qed.

(** C2. For a well-formed operation, [packUserOpV06] returns 320 bytes: ten
    32-byte words in declaration order, the sender after twelve zero bytes,
    the integers big-endian, each byte-string field replaced by its hash; no
    offset word, and no word for the signature. *)
Theorem packUserOpV06_layout (op : UserOperation) :
  wellFormed op = true ->
  packUserOpV06 keccak256 op
  = Ok ((zeros 12 ++ sender op)
        ++ numberToHex 32 (nonce op)
        ++ keccak256 (initCode op)
        ++ keccak256 (callData op)
        ++ numberToHex 32 (callGasLimit op)
        ++ numberToHex 32 (verificationGasLimit op)
        ++ numberToHex 32 (preVerificationGas op)
        ++ numberToHex 32 (maxFeePerGas op)
        ++ numberToHex 32 (maxPriorityFeePerGas op)
        ++ keccak256 (paymasterAndData op))
  /\ packUserOpV06 keccak256 op = Ok (concat (packedWords keccak256 op))
  /\ length (packedWords keccak256 op) = 10
  /\ Forall (fun w => size w = 32) (packedWords keccak256 op)
  /\ size (concat (packedWords keccak256 op)) = 320
  /\ Forall (fun n => hexToBigInt (numberToHex 32 n) = n)
       [nonce op; callGasLimit op; verificationGasLimit op; preVerificationGas op;
        maxFeePerGas op; maxPriorityFeePerGas op].
Proof.
  intros W. pose proof (wellFormed_fields op W) as (Ha & Hn & H1 & H2 & H3 & H4 & H5).
  assert (P := packUserOpV06_ok op W).
  split.
  { rewrite P. unfold packedWords, concat. cbn [List.concat].
    now rewrite (padLeft_address _ Ha), app_nil_r. }
  split; [exact P|].
  split; [reflexivity|].
  split.
  { unfold packedWords.
    repeat constructor;
      try apply numberToHex_length; try apply keccak256_size.
    apply padLeft_length. unfold isAddress in Ha. apply Nat.eqb_eq in Ha. lia. }
  split; [now apply packedWords_length|].
  unfold isUint256 in *.
  repeat constructor; apply hexToBigInt_word; now apply N.leb_le.
Qed.

(** C3. Two operations that agree on every field but the signature have the
    same digest for every entry point; for well-formed input that common
    result is a digest. *)
Theorem signature_not_in_digest (chainId : N) (op1 op2 : UserOperation)
  (entryPoint : Hex) :
  agreeExceptSignature op1 op2 ->
  getUserOperationHashV06 keccak256 chainId op1 entryPoint
  = getUserOperationHashV06 keccak256 chainId op2 entryPoint
  /\ (wellFormed op1 = true -> isAddress entryPoint = true ->
      isUint256 chainId = true ->
      exists digest : Hex,
        size digest = 32
        /\ getUserOperationHashV06 keccak256 chainId op1 entryPoint = Ok digest
        /\ getUserOperationHashV06 keccak256 chainId op2 entryPoint = Ok digest).
Proof.
  intros (E1 & E2 & E3 & E4 & E5 & E6 & E7 & E8 & E9 & E10).
  assert (E : getUserOperationHashV06 keccak256 chainId op1 entryPoint
              = getUserOperationHashV06 keccak256 chainId op2 entryPoint).
  { unfold getUserOperationHashV06, packUserOpV06.
    now rewrite E1, E2, E3, E4, E5, E6, E7, E8, E9, E10. }
  split; [exact E|].
  intros W He Hc. eexists. split; [|split].
  2:{ now apply getUserOperationHashV06_ok. }
  - apply keccak256_size.
  - rewrite <- E. now apply getUserOperationHashV06_ok.
Qed.


(** C10. Two operations with the same scalars whose [initCode], [callData]
    and [paymasterAndData] have pairwise equal hashes have the same digest
    for every entry point, whatever the byte strings themselves are. *)
Theorem digest_reads_hashes_only (chainId : N) (op1 op2 : UserOperation)
  (entryPoint : Hex) :
  agreeOnScalars op1 op2 ->
  keccak256 (initCode op1) = keccak256 (initCode op2) ->
  keccak256 (callData op1) = keccak256 (callData op2) ->
  keccak256 (paymasterAndData op1) = keccak256 (paymasterAndData op2) ->
  packUserOpV06 keccak256 op1 = packUserOpV06 keccak256 op2
  /\ getUserOperationHashV06 keccak256 chainId op1 entryPoint
     = getUserOperationHashV06 keccak256 chainId op2 entryPoint
  /\ (wellFormed op1 = true -> isAddress entryPoint = true ->
      isUint256 chainId = true ->
      exists digest : Hex,
        size digest = 32
        /\ getUserOperationHashV06 keccak256 chainId op1 entryPoint = Ok digest
        /\ getUserOperationHashV06 keccak256 chainId op2 entryPoint = Ok digest).
Proof.
  intros (E1 & E2 & E3 & E4 & E5 & E6 & E7) K1 K2 K3.
  assert (P : packUserOpV06 keccak256 op1 = packUserOpV06 keccak256 op2).
  { unfold packUserOpV06. now rewrite E1, E2, E3, E4, E5, E6, E7, K1, K2, K3. }
  assert (E : getUserOperationHashV06 keccak256 chainId op1 entryPoint
              = getUserOperationHashV06 keccak256 chainId op2 entryPoint).
  { unfold getUserOperationHashV06. now rewrite P. }
  split; [exact P|]. split; [exact E|].
  intros W He Hc. eexists. split; [|split].
  2:{ now apply getUserOperationHashV06_ok. }
  - apply keccak256_size.
  - rewrite <- E. now apply getUserOperationHashV06_ok.
Qed.

Lemma toFunctionSelector_size (f : AbiFunction) :
  size (toFunctionSelector keccak256 f) = 4.
Proof.
  unfold toFunctionSelector, size. rewrite length_firstn.
  fold (size (keccak256 (list_byte_of_string (formatAbiItem f)))).
  now rewrite keccak256_size.
Qed.

Lemma encode_dynamic_bytes_size (data : Hex) :
  size (encode_dynamic_bytes data) = tailSize data.
Proof.
  unfold encode_dynamic_bytes, tailSize.
  rewrite size_app, numberToHex_length, padRight_length; [reflexivity|].
  apply ceil32_spec.
Qed.

(** The prepared fields of one operation of [handleOps]. *)
Lemma prepareParam_userOperation (op : UserOperation) :
  wellFormed op = true ->
  prepareParam (TTuple userOperationComponents) (userOperationValue op)
  = Ok (tupleParam
          [mkPrepared false (zeros 12 ++ sender op);
           mkPrepared false (numberToHex 32 (nonce op));
           mkPrepared true (encode_dynamic_bytes (initCode op));
           mkPrepared true (encode_dynamic_bytes (callData op));
           mkPrepared false (numberToHex 32 (callGasLimit op));
           mkPrepared false (numberToHex 32 (verificationGasLimit op));
           mkPrepared false (numberToHex 32 (preVerificationGas op));
           mkPrepared false (numberToHex 32 (maxFeePerGas op));
           mkPrepared false (numberToHex 32 (maxPriorityFeePerGas op));
           mkPrepared true (encode_dynamic_bytes (paymasterAndData op));
           mkPrepared true (encode_dynamic_bytes (signature op))]).
Proof.
  intros W. apply wellFormed_fields in W.
  destruct W as (Ha & Hn & H1 & H2 & H3 & H4 & H5).
  unfold userOperationValue, userOperationComponents.
  rewrite prepareParam_tuple. cbn [prepareParams prepareParam].
  rewrite (encode_static_address _ Ha).
  rewrite (encode_static_uint256 _ Hn), (encode_static_uint256 _ H1),
    (encode_static_uint256 _ H2), (encode_static_uint256 _ H3),
    (encode_static_uint256 _ H4), (encode_static_uint256 _ H5).
  reflexivity.
Qed.

(** The payload of [handleOps] with one operation, and its size: selector, two
    head words, the element count, the offset of the one element, the eleven
    head words of the operation, and the tails of its four byte strings. *)
Lemma handleOpsCalldata_size (op : UserOperation) (beneficiary : Hex) :
  wellFormed op = true -> isAddress beneficiary = true ->
  exists payload : Hex,
    handleOpsCalldata keccak256 op beneficiary = Ok payload
    /\ size payload
       = 4 + 32 * 2 + 32 + 32 + 32 * 11
         + (tailSize (initCode op) + tailSize (callData op)
            + tailSize (paymasterAndData op) + tailSize (signature op)).
Proof.
  intros W Hb.
  pose proof (wellFormed_fields op W) as (Ha & _).
  unfold handleOpsCalldata, encodeFunctionData, encode_function_call, encode_tuple.
  change (inputs abi) with [TTupleArray userOperationComponents; TAddress].
  cbn [prepareParams]. rewrite prepareParam_array. cbn [prepareItems].
  rewrite (prepareParam_userOperation op W). cbn [bind prepareParam].
  rewrite (encode_static_address _ Hb). cbn [bind].
  eexists. split; [reflexivity|].
  unfold concat at 1. cbn [List.concat].
  rewrite app_nil_r, size_app, toFunctionSelector_size, tupleParam_encoded.
  rewrite encodeParams_size. unfold list_sum, encodedSize, arrayParam.
  cbn [map fold_right dynamic encoded length].
  rewrite !size_app, numberToHex_length, encodeParams_size.
  unfold list_sum, encodedSize. cbn [map fold_right].
  unfold tupleParam at 1. cbn [existsb dynamic orb].
  rewrite tupleParam_encoded, encodeParams_size.
  unfold list_sum, encodedSize. cbn [map fold_right dynamic encoded].
  rewrite !encode_dynamic_bytes_size, !numberToHex_length, !size_app, zeros_length.
  unfold isAddress in Ha, Hb. apply Nat.eqb_eq in Ha, Hb. lia.
Qed.

(** C5 (amended). The payload of [handleOps] with one well-formed operation
    whose [initCode] and [callData] are not empty and whose signature has 65
    bytes takes 4 bytes of selector, two head words, the count word, one
    offset word for the element, eleven head words for the operation, and
    for each of the four byte strings a length word and the bytes rounded up
    to a multiple of 32 (96 for the signature). *)
Theorem handleOpsCalldata_length (op : UserOperation) (beneficiary : Hex) :
  wellFormed op = true -> isAddress beneficiary = true ->
  initCode op <> [] -> callData op <> [] -> size (signature op) = 65 ->
  exists payload : Hex,
    handleOpsCalldata keccak256 op beneficiary = Ok payload
    /\ size payload
       = 4 + 32 * 2 + 32 + 32 + 32 * 11
         + ((32 + ceil32 (size (initCode op)))
            + (32 + ceil32 (size (callData op)))
            + (32 + ceil32 (size (paymasterAndData op)))
            + (32 + 96)).
Proof.
  intros W Hb _ _ Hs.
  destruct (handleOpsCalldata_size op beneficiary W Hb) as (payload & E & L).
  exists payload. split; [exact E|].
  rewrite L. unfold tailSize. rewrite Hs.
  change (ceil32 65) with 96. reflexivity.
Qed.

Lemma unsignedUserOperation_wellFormed (smartAccount factory sig : Hex) :
  isAddress smartAccount = true ->
  wellFormed (withSignature (unsignedUserOperation smartAccount factory) sig) = true
  /\ wellFormed (unsignedUserOperation smartAccount factory) = true.
Proof.
  intros H. unfold wellFormed, unsignedUserOperation, withSignature.
  cbn [sender nonce callGasLimit verificationGasLimit preVerificationGas
       maxFeePerGas maxPriorityFeePerGas].
  rewrite H. split; reflexivity.
Qed.

(** X4. The calldata [main] prints has 804 bytes, whatever the three addresses:
    the 88 bytes of [initCode] take 96, the 65 bytes of the signature take 96,
    [callData] and [paymasterAndData] are empty. *)
Example main_payload_size (chainId : N) (signMessage : Hex -> Hex)
  (entryPoint smartAccount factory : Hex) :
  (forall digest, size (signMessage digest) = 65) ->
  isAddress entryPoint = true -> isAddress smartAccount = true ->
  isAddress factory = true -> isUint256 chainId = true ->
  exists payload : Hex,
    main keccak256 chainId signMessage entryPoint smartAccount factory = Ok payload
    /\ size payload = 804.
Proof.
  intros Hs He Ha Hf Hc. unfold main.
  destruct (unsignedUserOperation_wellFormed smartAccount factory [] Ha) as [_ W].
  rewrite (getUserOperationHashV06_ok chainId _ entryPoint W He Hc). cbn [bind].
  set (digest := keccak256 _).
  destruct (unsignedUserOperation_wellFormed smartAccount factory (signMessage digest) Ha)
    as [W' _].
  destruct (handleOpsCalldata_size _ beneficiaryAddress W' eq_refl) as (payload & E & L).
  exists payload. split; [exact E|].
  rewrite L. unfold tailSize, withSignature, unsignedUserOperation.
  cbn [initCode callData paymasterAndData signature].
  rewrite Hs. unfold concat. cbn [List.concat]. rewrite app_nil_r, size_app.
  unfold isAddress in Hf. apply Nat.eqb_eq in Hf. rewrite Hf.
  reflexivity.
Qed.

(** The signature [main] stores was made for the digest of the operation it
    ends up in: storing it does not change the digest. *)
Lemma main_signs_final_digest (chainId : N) (signMessage : Hex -> Hex)
  (entryPoint smartAccount factory : Hex) (digest : Hex) :
  let userOperation := unsignedUserOperation smartAccount factory in
  getUserOperationHashV06 keccak256 chainId
    (withSignature userOperation (signMessage digest)) entryPoint
  = getUserOperationHashV06 keccak256 chainId userOperation entryPoint.
Proof. reflexivity. Qed.


End ScriptProperties.

(** ** The encoder's contract *)

(** C6. [encode_static] returns one 32-byte word: an address of at most 20
    bytes after zero bytes, a uint256 of at most 2^256-1 as its 32 big-endian
    bytes.  It fails with [ValueOutOfRange] exactly on a uint256 above 2^256-1
    and on an address wider than 20 bytes. *)
Theorem encode_static_contract :
  (forall v t w, encode_static v t = Ok w -> size w = 32)
  /\ (forall a, size a <= 20 ->
                encode_static (VHex a) TAddress = Ok (zeros (32 - size a) ++ a))
  /\ (forall n, (n <= 2 ^ 256 - 1)%N ->
                encode_static (VBigInt n) TUint256 = Ok (numberToHex 32 n)
                /\ hexToBigInt (numberToHex 32 n) = n)
  /\ (forall a, encode_static (VHex a) TAddress = Err ValueOutOfRange <-> 20 < size a)
  /\ (forall n, encode_static (VBigInt n) TUint256 = Err ValueOutOfRange
                <-> (2 ^ 256 - 1 < n)%N)
  /\ (forall v t,
        encode_static v t = Err ValueOutOfRange
        <-> (exists a, v = VHex a /\ t = TAddress /\ 20 < size a)
            \/ (exists n, v = VBigInt n /\ t = TUint256 /\ (2 ^ 256 - 1 < n)%N)).
Proof.
  assert (A : forall a, encode_static (VHex a) TAddress = Err ValueOutOfRange
                        <-> 20 < size a).
  { intros a. unfold encode_static. destruct (size a <=? 20) eqn:E.
    - apply Nat.leb_le in E. split; [discriminate|lia].
    - apply Nat.leb_gt in E. split; [trivial|reflexivity]. }
  assert (U : forall n, encode_static (VBigInt n) TUint256 = Err ValueOutOfRange
                        <-> (2 ^ 256 - 1 < n)%N).
  { intros n. unfold encode_static. fold uint256_max.
    destruct (n <=? uint256_max)%N eqn:E.
    - apply N.leb_le in E. split; [discriminate|lia].
    - apply N.leb_gt in E. split; [trivial|reflexivity]. }
  split; [exact encode_static_length|].
  split.
  { intros a H. unfold encode_static. apply Nat.leb_le in H. now rewrite H. }
  split.
  { intros n H. fold uint256_max in H. split.
    - unfold encode_static. apply N.leb_le in H. now rewrite H.
    - now apply hexToBigInt_word. }
  split; [exact A|]. split; [exact U|].
  intros v t. split.
  - intros E. destruct t, v; try (unfold encode_static in E; discriminate).
    + left. exists h. repeat split. now apply A.
    + right. exists n. repeat split. now apply U.
    + unfold encode_static in E. destruct (size h =? 32); discriminate.
  - intros [(a & -> & -> & H)|(n & -> & -> & H)]; [now apply A|now apply U].
Qed.

(** C7. The encoding of a byte string is the 32-byte big-endian word of its
    length, the bytes, and fewer than 32 zero bytes that fill the last word:
    32 + 32 * ceil(len / 32) bytes in all.  The empty string is encoded as the
    zero length word alone. *)
Theorem encode_dynamic_bytes_layout (data : Hex) :
  (exists padding : nat,
     padding < 32
     /\ (size data + padding) mod 32 = 0
     /\ encode_dynamic_bytes data
        = numberToHex 32 (N.of_nat (size data)) ++ data ++ zeros padding)
  /\ size (numberToHex 32 (N.of_nat (size data))) = 32
  /\ hexToBigInt (numberToHex 32 (N.of_nat (size data)))
     = (N.of_nat (size data) mod 2 ^ 256)%N
  /\ size (encode_dynamic_bytes data) = 32 + 32 * ((size data + 31) / 32)
  /\ encode_dynamic_bytes [] = zeros 32
  /\ prepareParam TBytes (VHex data) = Ok (mkPrepared true (encode_dynamic_bytes data)).
Proof.
  destruct (ceil32_spec (size data)) as (C & M & B).
  split.
  { exists (ceil32 (size data) - size data). split; [lia|]. split.
    - replace (size data + (ceil32 (size data) - size data)) with (ceil32 (size data))
        by lia.
      exact M.
    - reflexivity. }
  split; [apply numberToHex_length|].
  split; [apply hexToBigInt_numberToHex|].
  split.
  { unfold encode_dynamic_bytes.
    rewrite size_app, numberToHex_length, padRight_length by lia. lia. }
  split; [|reflexivity].
  unfold encode_dynamic_bytes, padRight. cbn [size length app].
  change (ceil32 0 - 0) with 0. cbn [zeros repeat].
  rewrite app_nil_r. apply numberToHex_zero.
Qed.

(** C8. Whatever the tuple layout, an array of no tuple is encoded as the
    32-byte zero count word alone. *)
Theorem encode_array_of_tuples_empty (tuple_layout : list AbiType) :
  encode_array_of_tuples [] tuple_layout = Ok (zeros 32)
  /\ prepareParam (TTupleArray tuple_layout) (VList []) = Ok (mkPrepared true (zeros 32))
  /\ size (zeros 32) = 32
  /\ hexToBigInt (zeros 32) = 0%N.
Proof.
  unfold encode_array_of_tuples. rewrite prepareParam_array.
  cbn [prepareItems bind arrayParam length encoded].
  change (N.of_nat 0) with 0%N. rewrite numberToHex_zero.
  repeat split.
Qed.

(** ** Instances *)

Lemma getUserOperationHashV06_digest_witness :
  wellFormed sampleOperation = true
  /\ isAddress sampleEntryPoint = true
  /\ isUint256 sampleChainId = true
  /\ exists digest : Hex,
       getUserOperationHashV06 sampleHash sampleChainId sampleOperation sampleEntryPoint
       = Ok digest
       /\ size digest = 32.
Proof.
  repeat (split; [reflexivity|]).
  destruct (@getUserOperationHashV06_digest sampleHash sampleHash_size sampleChainId
              sampleOperation sampleEntryPoint eq_refl eq_refl eq_refl)
    as (packed & _ & _ & _ & _ & _ & _ & E).
  eexists. split; [exact E|apply sampleHash_size].
Defined.

Lemma packUserOpV06_layout_witness :
  wellFormed sampleOperation = true
  /\ exists packed : Hex,
       packUserOpV06 sampleHash sampleOperation = Ok packed /\ size packed = 320.
Proof.
  split; [reflexivity|].
  destruct (@packUserOpV06_layout sampleHash sampleHash_size sampleOperation eq_refl)
    as (_ & E & _ & _ & L & _).
  eexists. split; [exact E|exact L].
Defined.

Lemma signature_not_in_digest_witness :
  agreeExceptSignature sampleOperation unsignedOperation
  /\ signature sampleOperation <> signature unsignedOperation
  /\ getUserOperationHashV06 sampleHash sampleChainId sampleOperation sampleEntryPoint
     = getUserOperationHashV06 sampleHash sampleChainId unsignedOperation sampleEntryPoint.
Proof.
  assert (A : agreeExceptSignature sampleOperation unsignedOperation)
    by (repeat split).
  split; [exact A|]. split; [discriminate|].
  exact (proj1 (@signature_not_in_digest sampleHash sampleHash_size sampleChainId
                  sampleOperation unsignedOperation sampleEntryPoint A)).
Defined.


Lemma digest_reads_hashes_only_witness :
  agreeOnScalars sampleOperation zeroExtendedOperation
  /\ initCode sampleOperation <> initCode zeroExtendedOperation
  /\ sampleHash (initCode sampleOperation) = sampleHash (initCode zeroExtendedOperation)
  /\ getUserOperationHashV06 sampleHash sampleChainId sampleOperation sampleEntryPoint
     = getUserOperationHashV06 sampleHash sampleChainId zeroExtendedOperation
         sampleEntryPoint.
Proof.
  assert (A : agreeOnScalars sampleOperation zeroExtendedOperation)
    by (repeat split).
  split; [exact A|]. split; [discriminate|]. split; [reflexivity|].
  exact (proj1 (proj2 (@digest_reads_hashes_only sampleHash sampleHash_size
                         sampleChainId sampleOperation zeroExtendedOperation
                         sampleEntryPoint A eq_refl eq_refl eq_refl))).
Defined.

Lemma handleOpsCalldata_length_witness :
  wellFormed sampleOperation = true /\ isAddress sampleBeneficiary = true
  /\ size (signature sampleOperation) = 65
  /\ exists payload : Hex,
       handleOpsCalldata sampleHash sampleOperation sampleBeneficiary = Ok payload
       /\ size payload = 772.
Proof.
  repeat (split; [reflexivity|]).
  assert (I : initCode sampleOperation <> []) by discriminate.
  assert (C : callData sampleOperation <> []) by discriminate.
  destruct (@handleOpsCalldata_length sampleHash sampleHash_size sampleOperation
              sampleBeneficiary eq_refl eq_refl I C eq_refl)
    as (payload & E & L).
  exists payload. split; [exact E|exact L].
Defined.


(** C5, as stated, fails: for the sample operation the stated size is 740
    when a tail counts the length word and the padded bytes, and 612 when it
    counts the padded bytes only, while the payload has 772 bytes whatever the
    hash. *)
Lemma handleOpsCalldata_length_counterexample :
  (initCode sampleOperation <> [] /\ callData sampleOperation <> []
   /\ size (signature sampleOperation) = 65)
  /\ statedPayloadSize tailSize sampleOperation = 740
  /\ statedPayloadSize (fun data => ceil32 (size data)) sampleOperation = 612
  /\ (forall keccak256 : Hex -> Hex,
        (forall h, size (keccak256 h) = 32) ->
        exists payload : Hex,
          handleOpsCalldata keccak256 sampleOperation sampleBeneficiary = Ok payload
          /\ size payload = 772
          /\ size payload <> statedPayloadSize tailSize sampleOperation
          /\ size payload
             <> statedPayloadSize (fun data => ceil32 (size data)) sampleOperation).
Proof.
  split; [repeat split; discriminate|].
  split; [reflexivity|]. split; [reflexivity|].
  intros keccak256 K.
  destruct (@handleOpsCalldata_size keccak256 K sampleOperation sampleBeneficiary
              eq_refl eq_refl)
    as (payload & E & L).
  exists payload. split; [exact E|].
  assert (S : size payload = 772) by (rewrite L; reflexivity).
  split; [exact S|]. rewrite S. split; discriminate.
Qed.

Lemma main_payload_size_witness :
  isAddress sampleEntryPoint = true /\ isAddress otherEntryPoint = true
  /\ isAddress sampleBeneficiary = true /\ isUint256 sampleChainId = true
  /\ exists payload : Hex,
       main sampleHash sampleChainId sampleSigner sampleEntryPoint otherEntryPoint
         sampleBeneficiary = Ok payload
       /\ size payload = 804.
Proof.
  repeat (split; [reflexivity|]).
  exact (@main_payload_size sampleHash sampleHash_size sampleChainId sampleSigner
           sampleEntryPoint otherEntryPoint sampleBeneficiary
           (fun _ => eq_refl) eq_refl eq_refl eq_refl eq_refl).
Defined.

(** ** What the digest binds, and what the program prints *)

Lemma Hex_eq_dec (x y : Hex) : {x = y} + {x <> y}.
Proof. apply list_eq_dec, Byte.byte_eq_dec. Qed.

(** Without a collision, equal hashes come from equal byte strings. *)
Lemma no_collision_inj (hash : Hex -> Hex) (x y : Hex) :
  ~ collision hash x y -> hash x = hash y -> x = y.
Proof.
  intros NC E. destruct (Hex_eq_dec x y) as [|N]; [assumption|].
  exfalso. apply NC. now split.
Qed.

Lemma same_size (a b : Hex) (n : nat) : size a = n -> size b = n -> length a = length b.
Proof. unfold size. congruence. Qed.

Lemma padLeft_address_inj (a b : Hex) :
  isAddress a = true -> isAddress b = true -> padLeft 32 a = padLeft 32 b -> a = b.
Proof.
  intros Ha Hb E. rewrite (padLeft_address a Ha), (padLeft_address b Hb) in E.
  now apply app_inv_head in E.
Qed.

Section DigestProperties.

Variable keccak256 : Hex -> Hex.

Hypothesis keccak256_size : forall h, size (keccak256 h) = 32.

Ltac first_word E H :=
  apply app_inj_length in E;
  [ destruct E as [H E]
  | apply same_size with (n := 32);
    first [ apply numberToHex_length | apply keccak256_size
          | apply padLeft_length; match goal with
                                  | A : isAddress _ = true |- _ =>
                                      unfold isAddress in A; apply Nat.eqb_eq in A; lia
                                  end ] ].

(** The packed tuple determines every scalar, and the hash of every byte
    string. *)
Lemma packedWords_inj (op1 op2 : UserOperation) :
  wellFormed op1 = true -> wellFormed op2 = true ->
  concat (packedWords keccak256 op1) = concat (packedWords keccak256 op2) ->
  agreeOnScalars op1 op2
  /\ keccak256 (initCode op1) = keccak256 (initCode op2)
  /\ keccak256 (callData op1) = keccak256 (callData op2)
  /\ keccak256 (paymasterAndData op1) = keccak256 (paymasterAndData op2).
Proof.
  intros W1 W2 E.
  pose proof (wellFormed_fields op1 W1) as (A1 & N1 & G1 & V1 & P1 & F1 & M1).
  pose proof (wellFormed_fields op2 W2) as (A2 & N2 & G2 & V2 & P2 & F2 & M2).
  unfold packedWords, concat in E. cbn [List.concat] in E. rewrite !app_nil_r in E.
  assert (A1' := A1). assert (A2' := A2).
  first_word E Es. first_word E En. first_word E Ei. first_word E Ec.
  first_word E Eg. first_word E Ev. first_word E Ep. first_word E Ef.
  first_word E Em.
  unfold isUint256 in *.
  repeat match goal with H : (_ <=? _)%N = true |- _ => apply N.leb_le in H end.
  unfold agreeOnScalars.
  repeat split; try assumption;
    first [ now apply padLeft_address_inj | now apply numberToHex_word_inj ].
Qed.

(** The result of [packUserOpV06], whatever the operation. *)
Lemma packUserOpV06_cases (op : UserOperation) :
  packUserOpV06 keccak256 op
  = if outOfRange op then Err ValueOutOfRange
    else Ok (concat (packedWords keccak256 op)).
Proof.
  unfold packUserOpV06, encodeAbiParameters, encode_tuple, outOfRange, isUint256.
  cbn [prepareParams prepareParam]. unfold encode_static.
  rewrite !keccak256_size. change (32 =? 32) with true. cbv iota.
  destruct (size (sender op) <=? 20); cbn [bind negb orb]; [|reflexivity].
  destruct (nonce op <=? uint256_max)%N; cbn [bind negb orb]; [|reflexivity].
  destruct (callGasLimit op <=? uint256_max)%N; cbn [bind negb orb]; [|reflexivity].
  destruct (verificationGasLimit op <=? uint256_max)%N; cbn [bind negb orb];
    [|reflexivity].
  destruct (preVerificationGas op <=? uint256_max)%N; cbn [bind negb orb];
    [|reflexivity].
  destruct (maxFeePerGas op <=? uint256_max)%N; cbn [bind negb orb]; [|reflexivity].
  destruct (maxPriorityFeePerGas op <=? uint256_max)%N; cbn [bind negb orb];
    reflexivity.
Qed.

(** X1. Two well-formed operations with the same packed tuple have the same
    sender, nonce and gas and fee integers, and their [initCode], [callData]
    and [paymasterAndData] have the same hashes. *)
Theorem packUserOpV06_binds_fields (op1 op2 : UserOperation) :
  wellFormed op1 = true -> wellFormed op2 = true ->
  packUserOpV06 keccak256 op1 = packUserOpV06 keccak256 op2 ->
  agreeOnScalars op1 op2
  /\ keccak256 (initCode op1) = keccak256 (initCode op2)
  /\ keccak256 (callData op1) = keccak256 (callData op2)
  /\ keccak256 (paymasterAndData op1) = keccak256 (paymasterAndData op2).
Proof.
  intros W1 W2 E.
  rewrite (@packUserOpV06_ok keccak256 keccak256_size op1 W1),
    (@packUserOpV06_ok keccak256 keccak256_size op2 W2) in E.
  apply packedWords_inj; trivial. congruence.
Qed.

(** X2. Two well-formed operations, each in a context of a 20-byte entry point
    and a chain id below 2^256, that get the same digest are the same
    operation up to the signature, in the same context, unless the hash
    collides on the two final messages, on the two packed tuples, or on one
    of the three pairs of byte strings. *)
Theorem equal_digest_same_operation (chainId1 chainId2 : N) (op1 op2 : UserOperation)
  (entryPoint1 entryPoint2 : Hex) :
  wellFormed op1 = true -> wellFormed op2 = true ->
  isAddress entryPoint1 = true -> isAddress entryPoint2 = true ->
  isUint256 chainId1 = true -> isUint256 chainId2 = true ->
  getUserOperationHashV06 keccak256 chainId1 op1 entryPoint1
  = getUserOperationHashV06 keccak256 chainId2 op2 entryPoint2 ->
  ~ collision keccak256 (digestMessage keccak256 chainId1 op1 entryPoint1)
      (digestMessage keccak256 chainId2 op2 entryPoint2) ->
  ~ collision keccak256 (concat (packedWords keccak256 op1))
      (concat (packedWords keccak256 op2)) ->
  ~ collision keccak256 (initCode op1) (initCode op2) ->
  ~ collision keccak256 (callData op1) (callData op2) ->
  ~ collision keccak256 (paymasterAndData op1) (paymasterAndData op2) ->
  agreeExceptSignature op1 op2 /\ entryPoint1 = entryPoint2 /\ chainId1 = chainId2.
Proof.
  intros W1 W2 A1 A2 C1 C2 E NM NP NI NC NPD.
  rewrite (@getUserOperationHashV06_ok keccak256 keccak256_size chainId1 op1
             entryPoint1 W1 A1 C1),
    (@getUserOperationHashV06_ok keccak256 keccak256_size chainId2 op2
       entryPoint2 W2 A2 C2) in E.
  assert (M : digestMessage keccak256 chainId1 op1 entryPoint1
              = digestMessage keccak256 chainId2 op2 entryPoint2).
  { apply (@no_collision_inj keccak256 _ _ NM). congruence. }
  unfold digestMessage in M.
  apply app_inj_length in M;
    [|apply same_size with (n := 32); apply keccak256_size].
  destruct M as [HP M].
  apply (@no_collision_inj keccak256 _ _ NP) in HP.
  destruct (@packedWords_inj op1 op2 W1 W2 HP)
    as ((Es & En & Eg & Ev & Ep & Ef & Em) & Hi & Hc & Hpd).
  apply (@no_collision_inj keccak256 _ _ NI) in Hi.
  apply (@no_collision_inj keccak256 _ _ NC) in Hc.
  apply (@no_collision_inj keccak256 _ _ NPD) in Hpd.
  rewrite <- !app_assoc in M. apply app_inv_head in M.
  unfold isAddress in A1, A2. apply Nat.eqb_eq in A1, A2.
  apply app_inj_length in M; [|unfold size in *; congruence].
  destruct M as [Ee Ec].
  unfold isUint256 in C1, C2. apply N.leb_le in C1, C2.
  apply numberToHex_word_inj in Ec; trivial.
  unfold agreeExceptSignature. repeat split; assumption.
Qed.

(** X3. When the sender is wider than 20 bytes or an integer of the operation
    is above 2^256-1, [packUserOpV06] fails with [ValueOutOfRange], and so
    does [getUserOperationHashV06] for every entry point and chain id: no
    digest is made of an operation that cannot be packed. *)
Theorem out_of_range_has_no_digest (op : UserOperation) :
  outOfRange op = true ->
  packUserOpV06 keccak256 op = Err ValueOutOfRange
  /\ forall (chainId : N) (entryPoint : Hex),
       getUserOperationHashV06 keccak256 chainId op entryPoint = Err ValueOutOfRange.
Proof.
  intros H.
  assert (P : packUserOpV06 keccak256 op = Err ValueOutOfRange)
    by (rewrite packUserOpV06_cases; now rewrite H).
  split; [exact P|].
  intros chainId entryPoint. unfold getUserOperationHashV06. now rewrite P.
Qed.

Variable kakarotChain_id : N.

Hypothesis kakarotChain_id_range : isUint256 kakarotChain_id = true.

Variable signMessage : Hex -> Hex.

Variable getAddress : string -> option Hex.

(** What [getAddress] returns is a 20-byte address. *)
Hypothesis getAddress_valid :
  forall text a, getAddress text = Some a -> isAddress a = true.

(** Once the addresses are read, nothing can fail: the operation is signed
    for its own digest and printed, then the calldata. *)
Lemma submitUserOperation_ok (entryPoint smartAccount factory : Hex) :
  isAddress entryPoint = true -> isAddress smartAccount = true ->
  exists digest calldata : Hex,
    let signed :=
      withSignature (unsignedUserOperation smartAccount factory) (signMessage digest) in
    getUserOperationHashV06 keccak256 kakarotChain_id
      (unsignedUserOperation smartAccount factory) entryPoint = Ok digest
    /\ getUserOperationHashV06 keccak256 kakarotChain_id signed entryPoint = Ok digest
    /\ handleOpsCalldata keccak256 signed beneficiaryAddress = Ok calldata
    /\ submitUserOperation keccak256 kakarotChain_id signMessage
         entryPoint smartAccount factory
       = {| printed := [LogUserOperation signed; LogCalldata calldata];
            completion := Returned |}.
Proof.
  intros He Ha.
  destruct (@unsignedUserOperation_wellFormed smartAccount factory [] Ha) as [_ W].
  pose proof (@getUserOperationHashV06_ok keccak256 keccak256_size kakarotChain_id _
                entryPoint W He kakarotChain_id_range) as D.
  set (digest := keccak256 _) in D.
  destruct (@unsignedUserOperation_wellFormed smartAccount factory
              (signMessage digest) Ha) as [W' _].
  destruct (@handleOpsCalldata_size keccak256 keccak256_size _ beneficiaryAddress
              W' eq_refl) as (calldata & E & _).
  exists digest, calldata. cbv zeta.
  split; [exact D|]. split; [exact D|]. split; [exact E|].
  unfold submitUserOperation. rewrite D. cbv zeta. now rewrite E.
Qed.

(** X5. With the three flags given and read as addresses, [main] returns
    after printing two things: the operation, whose signature was made for
    the digest of that very operation, and the [handleOps] calldata of that
    operation for the fixed beneficiary. *)
Theorem runMain_success (argv : Argv) (entryPointText smartAccountText factoryText : string)
  (entryPoint smartAccount factory : Hex) :
  readFlag (argv_entry_point argv) = Some entryPointText ->
  readFlag (argv_smart_account argv) = Some smartAccountText ->
  readFlag (argv_factory argv) = Some factoryText ->
  getAddress entryPointText = Some entryPoint ->
  getAddress smartAccountText = Some smartAccount ->
  getAddress factoryText = Some factory ->
  exists digest calldata : Hex,
    let signed :=
      withSignature (unsignedUserOperation smartAccount factory) (signMessage digest) in
    getUserOperationHashV06 keccak256 kakarotChain_id signed entryPoint = Ok digest
    /\ handleOpsCalldata keccak256 signed beneficiaryAddress = Ok calldata
    /\ runMain keccak256 kakarotChain_id signMessage getAddress argv
       = {| printed := [LogUserOperation signed; LogCalldata calldata];
            completion := Returned |}.
Proof.
  intros Fe Fs Ff Ge Gs Gf.
  destruct (@submitUserOperation_ok entryPoint smartAccount factory
              (getAddress_valid Ge) (getAddress_valid Gs))
    as (digest & calldata & _ & D & E & R).
  exists digest, calldata. cbv zeta in *.
  split; [exact D|]. split; [exact E|].
  unfold runMain. now rewrite Fe, Ge, Fs, Gs, Ff, Gf.
Qed.

End DigestProperties.

Section RunProperties.

Variable keccak256 : Hex -> Hex.
Variable kakarotChain_id : N.
Variable signMessage : Hex -> Hex.
Variable getAddress : string -> option Hex.

(** X6. When one of the three flags is missing or empty, [main] prints no
    operation and no calldata: either it prints the one line that names a
    missing flag and leaves with exit code 0, or an address given before the
    missing flag was refused and it throws without printing. *)
Theorem runMain_missing_flag (argv : Argv) :
  readFlag (argv_entry_point argv) = None
  \/ readFlag (argv_smart_account argv) = None
  \/ readFlag (argv_factory argv) = None ->
  printsCalldata (runMain keccak256 kakarotChain_id signMessage getAddress argv) = false
  /\ ((exists flag : string,
         In flag ["entry-point"; "smart-account"; "factory"]%string
         /\ readFlag (argvFlag argv flag) = None
         /\ runMain keccak256 kakarotChain_id signMessage getAddress argv
            = {| printed := [LogText ("missing flag `--" ++ flag ++ "`")];
                 completion := Exited 0 |})
      \/ runMain keccak256 kakarotChain_id signMessage getAddress argv
         = {| printed := []; completion := Threw InvalidAddress |}).
Proof.
  intros H. unfold runMain.
  destruct (readFlag (argv_entry_point argv)) as [e|] eqn:Fe.
  2:{ split; [reflexivity|]. left. exists "entry-point"%string.
      cbn. rewrite Fe. auto. }
  destruct (getAddress e); [|now split; [|right]].
  destruct (readFlag (argv_smart_account argv)) as [s|] eqn:Fs.
  2:{ split; [reflexivity|]. left. exists "smart-account"%string.
      cbn. rewrite Fs. auto. }
  destruct (getAddress s); [|now split; [|right]].
  destruct (readFlag (argv_factory argv)) as [f|] eqn:Ff.
  2:{ split; [reflexivity|]. left. exists "factory"%string.
      cbn. rewrite Ff. auto. }
  destruct H as [H|[H|H]]; discriminate H.
Qed.

(** X7. [main] prints a calldata only at the end of a complete run: the three
    flags were given and read as addresses, the printed operation carries the
    signature made for its own digest, the calldata is the [handleOps]
    payload of that operation, nothing else was printed and [main]
    returned. *)
Theorem runMain_calldata_is_signed (argv : Argv) :
  printsCalldata (runMain keccak256 kakarotChain_id signMessage getAddress argv) = true ->
  exists (entryPointText smartAccountText factoryText : string)
         (entryPoint smartAccount factory digest calldata : Hex),
    let signed :=
      withSignature (unsignedUserOperation smartAccount factory) (signMessage digest) in
    readFlag (argv_entry_point argv) = Some entryPointText
    /\ readFlag (argv_smart_account argv) = Some smartAccountText
    /\ readFlag (argv_factory argv) = Some factoryText
    /\ getAddress entryPointText = Some entryPoint
    /\ getAddress smartAccountText = Some smartAccount
    /\ getAddress factoryText = Some factory
    /\ getUserOperationHashV06 keccak256 kakarotChain_id signed entryPoint = Ok digest
    /\ handleOpsCalldata keccak256 signed beneficiaryAddress = Ok calldata
    /\ runMain keccak256 kakarotChain_id signMessage getAddress argv
       = {| printed := [LogUserOperation signed; LogCalldata calldata];
            completion := Returned |}.
Proof.
  unfold runMain.
  destruct (readFlag (argv_entry_point argv)) as [e|] eqn:Fe; [|discriminate].
  destruct (getAddress e) as [ep|] eqn:Ge; [|discriminate].
  destruct (readFlag (argv_smart_account argv)) as [s|] eqn:Fs; [|discriminate].
  destruct (getAddress s) as [sa|] eqn:Gs; [|discriminate].
  destruct (readFlag (argv_factory argv)) as [f|] eqn:Ff; [|discriminate].
  destruct (getAddress f) as [fa|] eqn:Gf; [|discriminate].
  unfold submitUserOperation.
  destruct (getUserOperationHashV06 keccak256 kakarotChain_id
              (unsignedUserOperation sa fa) ep) as [digest|] eqn:D; [|discriminate].
  cbv zeta.
  destruct (handleOpsCalldata keccak256
              (withSignature (unsignedUserOperation sa fa) (signMessage digest))
              beneficiaryAddress) as [calldata|] eqn:E; [|discriminate].
  intros _. exists e, s, f, ep, sa, fa, digest, calldata. cbv zeta.
  repeat split; trivial.
Qed.

End RunProperties.

(** ** Instances of the properties of the digest and of the program *)

Lemma sampleGetAddress_valid (text : string) (a : Hex) :
  sampleGetAddress text = Some a -> isAddress a = true.
Proof.
  unfold sampleGetAddress. destruct (list_byte_of_string text); [discriminate|].
  now intros [= <-].
Qed.

Lemma packUserOpV06_binds_fields_witness :
  wellFormed sampleOperation = true /\ wellFormed zeroExtendedOperation = true
  /\ packUserOpV06 sampleHash sampleOperation
     = packUserOpV06 sampleHash zeroExtendedOperation
  /\ callData sampleOperation <> callData zeroExtendedOperation
  /\ sampleHash (callData sampleOperation) = sampleHash (callData zeroExtendedOperation).
Proof.
  assert (E : packUserOpV06 sampleHash sampleOperation
              = packUserOpV06 sampleHash zeroExtendedOperation)
    by (vm_compute; reflexivity).
  split; [reflexivity|]. split; [reflexivity|].
  split; [exact E|]. split; [discriminate|].
  exact (proj1 (proj2 (proj2 (@packUserOpV06_binds_fields sampleHash sampleHash_size
                                sampleOperation zeroExtendedOperation
                                eq_refl eq_refl E)))).
Defined.

Lemma equal_digest_same_operation_witness :
  getUserOperationHashV06 sampleHash sampleChainId sampleOperation sampleEntryPoint
  = getUserOperationHashV06 sampleHash sampleChainId unsignedOperation sampleEntryPoint
  /\ agreeExceptSignature sampleOperation unsignedOperation.
Proof.
  split; [reflexivity|].
  exact (proj1 (@equal_digest_same_operation sampleHash sampleHash_size
                  sampleChainId sampleChainId sampleOperation unsignedOperation
                  sampleEntryPoint sampleEntryPoint
                  eq_refl eq_refl eq_refl eq_refl eq_refl eq_refl eq_refl
                  (fun C => proj1 C eq_refl) (fun C => proj1 C eq_refl)
                  (fun C => proj1 C eq_refl) (fun C => proj1 C eq_refl)
                  (fun C => proj1 C eq_refl))).
Defined.

Lemma out_of_range_has_no_digest_witness :
  outOfRange overflowingOperation = true
  /\ getUserOperationHashV06 sampleHash sampleChainId overflowingOperation
       sampleEntryPoint = Err ValueOutOfRange.
Proof.
  split; [reflexivity|].
  exact (proj2 (@out_of_range_has_no_digest sampleHash sampleHash_size
                  overflowingOperation eq_refl) sampleChainId sampleEntryPoint).
Defined.

Lemma runMain_success_witness :
  readFlag (argv_entry_point sampleArgv) = Some "e"%string
  /\ sampleGetAddress "e" = Some (sampleAddress Init.Byte.x65)
  /\ exists (op : UserOperation) (calldata : Hex),
       runMain sampleHash sampleChainId sampleSigner sampleGetAddress sampleArgv
       = {| printed := [LogUserOperation op; LogCalldata calldata];
            completion := Returned |}.
Proof.
  split; [reflexivity|]. split; [reflexivity|].
  destruct (@runMain_success sampleHash sampleHash_size sampleChainId eq_refl
              sampleSigner sampleGetAddress sampleGetAddress_valid sampleArgv
              "e"%string "s"%string "f"%string
              (sampleAddress Init.Byte.x65) (sampleAddress Init.Byte.x73)
              (sampleAddress Init.Byte.x66)
              eq_refl eq_refl eq_refl eq_refl eq_refl eq_refl)
    as (digest & calldata & _ & _ & R).
  eexists. exists calldata. exact R.
Defined.

Lemma runMain_missing_flag_witness :
  readFlag (argv_entry_point argvWithoutEntryPoint) = None
  /\ completion (runMain sampleHash sampleChainId sampleSigner sampleGetAddress
                   argvWithoutEntryPoint) <> Returned.
Proof.
  split; [reflexivity|].
  destruct (@runMain_missing_flag sampleHash sampleChainId sampleSigner
              sampleGetAddress argvWithoutEntryPoint (or_introl eq_refl))
    as [_ [(flag & _ & _ & R)|R]]; rewrite R; discriminate.
Defined.

Lemma runMain_calldata_is_signed_witness :
  printsCalldata (runMain sampleHash sampleChainId sampleSigner sampleGetAddress
                    sampleArgv) = true
  /\ exists (op : UserOperation) (calldata : Hex),
       runMain sampleHash sampleChainId sampleSigner sampleGetAddress sampleArgv
       = {| printed := [LogUserOperation op; LogCalldata calldata];
            completion := Returned |}.
Proof.
  assert (P : printsCalldata (runMain sampleHash sampleChainId sampleSigner
                                sampleGetAddress sampleArgv) = true)
    by (vm_compute; reflexivity).
  split; [exact P|].
  destruct (@runMain_calldata_is_signed sampleHash sampleChainId sampleSigner
              sampleGetAddress sampleArgv P)
    as (e & s & f & ep & sa & fa & digest & calldata & _ & _ & _ & _ & _ & _ & _ & _ & R).
  eexists. exists calldata. exact R.
Defined.

(** ** Limits of the claims on the digest and on the framing *)












